(** * The [dangerCheck] tool of src/src/tools.ts

    Shallow embedding of the command-risk classifier of the Linux helper
    agent.  JavaScript strings are sequences of UTF-16 code units; the
    command and the [instruction] text are modelled as [list N] of code
    units.  Each regular-expression literal of the pattern table is
    written as a term of a small regular-expression syntax, and
    [RegExp.prototype.test] (no flags: not global, not sticky, case
    sensitive) as an unanchored search for a match. *)

From Stdlib Require Import String Ascii List Bool NArith Lia Sorting.Sorted.
Import ListNotations.
Open Scope N_scope.

(** ** Code units *)

Definition cu := N.

(** ASCII text as code units (every literal of the source we need is ASCII
    except the two emoji of the instruction templates). *)
Definition units (s : string) : list cu :=
  map N_of_ascii (list_ascii_of_string s).

(** ECMAScript [WhiteSpace] and [LineTerminator], the class of [\s]. *)
Definition is_space (c : cu) : bool :=
  ((9 <=? c) && (c <=? 13)) || (c =? 32) || (c =? 160) || (c =? 5760)
  || ((8192 <=? c) && (c <=? 8202)) || (c =? 8232) || (c =? 8233)
  || (c =? 8239) || (c =? 8287) || (c =? 12288) || (c =? 65279).

(** The class of [.] without the [s] flag: everything but a line terminator. *)
Definition is_dot (c : cu) : bool :=
  negb ((c =? 10) || (c =? 13) || (c =? 8232) || (c =? 8233)).

(** ** Regular expressions *)

Inductive regex : Type :=
  | Eps : regex                     (* empty pattern *)
  | Cls : (cu -> bool) -> regex     (* one code unit of a class *)
  | Seq : regex -> regex -> regex   (* concatenation *)
  | Alt : regex -> regex -> regex   (* alternation *)
  | StarC : (cu -> bool) -> regex.  (* [c*] for a character class [c] *)

(** The suffixes left after matching [r] at the start of [s] (all the
    ways to match, as a backtracking matcher would explore them). *)
Fixpoint star_rest (p : cu -> bool) (s : list cu) : list (list cu) :=
  s :: match s with
       | c :: t => if p c then star_rest p t else []
       | [] => []
       end.

Fixpoint rest (r : regex) (s : list cu) : list (list cu) :=
  match r with
  | Eps => [s]
  | Cls p => match s with
             | c :: t => if p c then [t] else []
             | [] => []
             end
  | Seq r1 r2 => flat_map (rest r2) (rest r1 s)
  | Alt r1 r2 => rest r1 s ++ rest r2 s
  | StarC p => star_rest p s
  end.

Definition matches_here (r : regex) (s : list cu) : bool :=
  match rest r s with [] => false | _ :: _ => true end.

(** [re.test(s)]: try every start index [0 .. s.length]. *)
Fixpoint test (r : regex) (s : list cu) : bool :=
  matches_here r s || match s with [] => false | _ :: t => test r t end.

(** Building blocks of the pattern literals. *)
Definition lit (c : cu) : regex := Cls (N.eqb c).
Definition cat (rs : list regex) : regex := fold_right Seq Eps rs.
Definition str (s : string) : regex := cat (map lit (units s)).
Definition opt (r : regex) : regex := Alt r Eps.          (* r? *)
Definition plus (p : cu -> bool) : regex := Seq (Cls p) (StarC p). (* c+ *)
Definition ws : cu -> bool := is_space.                   (* \s *)
Definition lower (c : cu) : bool := (97 <=? c) && (c <=? 122). (* [a-z] *)

(** ** The data model *)

Inductive RiskLevel : Type := low | medium | high | critical.

(** The risk strings of the table. *)
Definition risk_name (r : RiskLevel) : string :=
  match r with
  | low => "low" | medium => "medium" | high => "high" | critical => "critical"
  end.

Record DangerPattern : Type := {
  pattern : regex;
  risk : RiskLevel;
  reason : string
}.

Record Risk : Type := { r_risk : RiskLevel; r_reason : string }.

Definition mk (p : regex) (r : RiskLevel) (why : string) : DangerPattern :=
  {| pattern := p; risk := r; reason := why |}.

(** The entries of [dangerousPatterns], in source order. *)

(** [/rm\s+-rf?\s+\//] *)
Definition sig_rm_root : DangerPattern :=
  mk (cat [str "rm"; plus ws; str "-r"; opt (str "f"); plus ws; str "/"])
     critical "Deletes root filesystem".

(** [/rm\s+-rf/] *)
Definition sig_rm_rf : DangerPattern :=
  mk (cat [str "rm"; plus ws; str "-rf"])
     high "Recursive force delete without confirmation".

(** [/mkfs/] *)
Definition sig_mkfs : DangerPattern :=
  mk (str "mkfs")
     critical "Formats filesystem, destroys all data".

(** [/dd\s+.*of=\/dev\//] *)
Definition sig_dd : DangerPattern :=
  mk (cat [str "dd"; plus ws; StarC is_dot; str "of=/dev/"])
     critical "Overwrites disk device directly".

(** [/>\s*\/dev\/sd[a-z]/] *)
Definition sig_dev_sd : DangerPattern :=
  mk (cat [str ">"; StarC ws; str "/dev/sd"; Cls lower])
     critical "Overwrites disk device".

(** [/chmod\s+-R\s+777/] *)
Definition sig_chmod : DangerPattern :=
  mk (cat [str "chmod"; plus ws; str "-R"; plus ws; str "777"])
     high "Removes all file permissions security".

(** [/chown\s+-R/] *)
Definition sig_chown : DangerPattern :=
  mk (cat [str "chown"; plus ws; str "-R"])
     medium "Recursive ownership change".

(** [/:\(\)\{\s*:\|:\s*&\s*\};\s*:/] *)
Definition sig_fork_bomb : DangerPattern :=
  mk (cat [str ":(){"; StarC ws; str ":|:"; StarC ws; str "&"; StarC ws;
           str "};"; StarC ws; str ":"])
     critical "Fork bomb - crashes system".

(** [/>\s*\/etc\/passwd/] *)
Definition sig_passwd : DangerPattern :=
  mk (cat [str ">"; StarC ws; str "/etc/passwd"])
     critical "Overwrites user database".

(** [/curl.*\|\s*(ba)?sh/] *)
Definition sig_curl : DangerPattern :=
  mk (cat [str "curl"; StarC is_dot; str "|"; StarC ws; opt (str "ba"); str "sh"])
     high "Executes remote script without review".

(** [/wget.*\|\s*(ba)?sh/] *)
Definition sig_wget : DangerPattern :=
  mk (cat [str "wget"; StarC is_dot; str "|"; StarC ws; opt (str "ba"); str "sh"])
     high "Executes remote script without review".

(** [dangerousPatterns] *)
Definition dangerousPatterns : list DangerPattern :=
  [sig_rm_root; sig_rm_rf; sig_mkfs; sig_dd; sig_dev_sd; sig_chmod;
   sig_chown; sig_fork_bomb; sig_passwd; sig_curl; sig_wget].

(** ** The [execute] function of [dangerCheck] *)

(** [String.prototype.toUpperCase], on the ASCII range, which is all it
    meets here: it is only applied to the risk names of the table. *)
Definition upper_unit (c : cu) : cu :=
  if (97 <=? c) && (c <=? 122) then c - 32 else c.

Definition toUpperCase (s : list cu) : list cu := map upper_unit s.

(** [Array.prototype.join]. *)
Fixpoint join (sep : list cu) (xs : list (list cu)) : list cu :=
  match xs with
  | [] => []
  | [x] => x
  | x :: xs' => x ++ sep ++ join sep xs'
  end.

Definition nl : list cu := [10].

(** One line of the risk list: [`- [${r.risk.toUpperCase()}] ${r.reason}`]. *)
Definition risk_line (r : Risk) : list cu :=
  units "- [" ++ toUpperCase (units (risk_name (r_risk r))) ++ units "] "
  ++ units (r_reason r).

(** The [⚠️] (U+26A0 U+FE0F) and [✅] (U+2705) of the templates. *)
Definition warning_sign : list cu := [9888; 65039].
Definition check_mark : list cu := [9989].

Definition danger_tail : list cu :=
  nl ++ nl ++ units "Provide:" ++ nl
  ++ units "1. **Why It's Dangerous**: Detailed explanation of what could go wrong" ++ nl
  ++ units "2. **Safer Alternative**: A safer way to accomplish the same goal" ++ nl
  ++ units "3. **If You Must Proceed**: Precautions and backup steps" ++ nl
  ++ units "4. **Recovery Options**: What to do if something goes wrong".

Definition safe_tail : list cu :=
  nl ++ nl ++ units "However, always:" ++ nl
  ++ units "1. Understand what a command does before running it" ++ nl
  ++ units "2. Test with dry-run flags when available" ++ nl
  ++ units "3. Have backups for important data" ++ nl
  ++ units "4. Use sudo only when necessary".

Definition danger_instruction (command : list cu) (risks : list Risk) : list cu :=
  warning_sign ++ units " DANGER DETECTED in command: " ++ command ++ nl ++ nl
  ++ units "Risks found:" ++ nl
  ++ join nl (map risk_line risks)
  ++ danger_tail.

Definition safe_instruction (command : list cu) : list cu :=
  check_mark ++ units " No obvious dangers detected in: " ++ command ++ safe_tail.

Record DangerCheckResult : Type := {
  res_type : string;
  res_command : list cu;
  risks : list Risk;
  hasDanger : bool;
  instruction : list cu
}.

(** [({ risk: p.risk, reason: p.reason })] *)
(** [dangerousPatterns.filter((p) => p.pattern.test(command))
      .map((p) => ({ risk: p.risk, reason: p.reason }))] *)
Definition to_risk (p : DangerPattern) : Risk :=
  {| r_risk := risk p; r_reason := reason p |}.

Definition find_risks (command : list cu) : list Risk :=
  map to_risk
      (filter (fun p => test (pattern p) command) dangerousPatterns).

(** [execute: async ({ command }) => { ... }] of the [dangerCheck] tool. *)
Definition dangerCheck (command : list cu) : DangerCheckResult :=
  let rs := find_risks command in
  {| res_type := "danger_check";
     res_command := command;
     risks := rs;
     hasDanger := 0 <? N.of_nat (length rs);
     instruction := if 0 <? N.of_nat (length rs)
                    then danger_instruction command rs
                    else safe_instruction command |}.

Definition classify (s : string) : DangerCheckResult := dangerCheck (units s).

(** ** Readings of the specification, to be compared with the code *)

(** The classifier as the specification describes it: for each signature
    in table order, test it and append its finding when it matches. *)
Definition classify_loop (table : list DangerPattern) (command : list cu)
  : list Risk :=
  fold_left (fun acc p => if test (pattern p) command then acc ++ [to_risk p]
                          else acc) table [].

(** The upper-cased risk levels, as the specification names them. *)
Definition RISK_LEVEL (r : RiskLevel) : string :=
  match r with
  | low => "LOW" | medium => "MEDIUM" | high => "HIGH" | critical => "CRITICAL"
  end.

(** The listing of the findings, one line [- [RISK_LEVEL] reason] each, in
    order, lines separated by a newline. *)
Definition spec_line (r : Risk) : list cu :=
  units "- [" ++ units (RISK_LEVEL (r_risk r)) ++ units "] " ++ units (r_reason r).

Definition spec_listing (rs : list Risk) : list cu :=
  match rs with
  | [] => []
  | r :: rs' => spec_line r ++ concat (map (fun r' => nl ++ spec_line r') rs')
  end.

(** A sequence of tool invocations: each runs [execute] of [dangerCheck],
    which builds its pattern table afresh from the literals. *)
Definition run_session (calls : list (list cu)) : list DangerCheckResult :=
  map dangerCheck calls.

(** ** The other tools of [linuxTools] *)

(** JavaScript's [x || d] on an optional string parameter: [undefined] and
    the empty string are falsy. *)
Definition or_default (o : option (list cu)) (d : list cu) : list cu :=
  match o with Some (c :: t) => c :: t | _ => d end.

(** [${x ? ` (...${x})` : ""}] on an optional string parameter. *)
Definition opt_suffix (o : option (list cu)) (before after : list cu) : list cu :=
  match o with Some (c :: t) => before ++ (c :: t) ++ after | _ => [] end.

(** The blank line of the templates holds eight spaces. *)
Definition template_gap : list cu := nl ++ units "        " ++ nl.

Record SuggestResult : Type := {
  sg_type : string; sg_task : list cu; sg_distro : list cu; sg_instruction : list cu
}.

(** [execute] of [suggestCommand]. *)
Definition suggestCommand (task : list cu) (distro : option (list cu)) : SuggestResult :=
  {| sg_type := "suggest";
     sg_task := task;
     sg_distro := or_default distro (units "generic");
     sg_instruction :=
       units "Suggest the best command(s) to: " ++ task
       ++ opt_suffix distro (units " (for ") (units ")")
       ++ template_gap ++ units "Format your response as:" ++ nl
       ++ units "1. **Recommended Command**: The primary command to use" ++ nl
       ++ units "2. **Explanation**: Why this is the best approach" ++ nl
       ++ units "3. **Alternative Options**: Other ways to accomplish this" ++ nl
       ++ units "4. **Pro Tips**: Useful flags or variations" ++ nl
       ++ units "5. **Example Usage**: Real-world example with expected output" |}.

Record FixResult : Type := {
  fx_type : string; fx_error : list cu; fx_context : list cu; fx_instruction : list cu
}.

(** [execute] of [fixError]. *)
Definition fixError (error : list cu) (context : option (list cu)) : FixResult :=
  {| fx_type := "fix";
     fx_error := error;
     fx_context := or_default context (units "unknown");
     fx_instruction :=
       units "Help troubleshoot this error: " ++ error
       ++ opt_suffix context (units " (Context: ") (units ")")
       ++ template_gap ++ units "Format your response as:" ++ nl
       ++ units "1. **Error Analysis**: What does this error actually mean?" ++ nl
       ++ units "2. **Common Causes**: Top reasons this error occurs" ++ nl
       ++ units "3. **Diagnostic Steps**: Commands to gather more information" ++ nl
       ++ units "4. **Solution(s)**: Step-by-step fix instructions" ++ nl
       ++ units "5. **Prevention**: How to avoid this in the future" |}.

(** ** [executeLinuxTool] *)

(** JavaScript values as the server gets them from [JSON.parse], plus
    [undefined] (the value of a missing property).  A number carries the
    text [String(n)] gives for it; an object its members in source order. *)
Set Warnings "-register-all".
Inductive jsval : Type :=
  | JUndef
  | JNull
  | JBool (b : bool)
  | JNum (text : list cu)
  | JStr (s : list cu)
  | JArr (xs : list jsval)
  | JObj (fields : list (list cu * jsval)).

Definition list_eqb (a b : list cu) : bool :=
  if list_eq_dec N.eq_dec a b then true else false.

(** The value of an own member of a parsed object: the last one of that
    name wins, as in [JSON.parse]. *)
Fixpoint own_member (fs : list (list cu * jsval)) (k : list cu) : option jsval :=
  match fs with
  | [] => None
  | (k', v) :: fs' =>
      match own_member fs' k with
      | Some w => Some w
      | None => if list_eqb k k' then Some v else None
      end
  end.

(** [ToPropertyKey] of a parsed value ([None]: it throws a TypeError).  An
    object goes through [ToPrimitive] with hint string: an own, non-callable
    [toString] (every member of a parsed object is) is skipped, and so is
    [valueOf], whose inherited version returns the object itself; both
    inherited gives ["[object Object]"], otherwise the conversion throws.
    An array is joined with commas, [null] and [undefined] elements as the
    empty string. *)
Fixpoint to_key (v : jsval) : option (list cu) :=
  match v with
  | JUndef => Some (units "undefined")
  | JNull => Some (units "null")
  | JBool true => Some (units "true")
  | JBool false => Some (units "false")
  | JNum t => Some t
  | JStr s => Some s
  | JArr xs =>
      let fix elems (xs : list jsval) : option (list (list cu)) :=
        match xs with
        | [] => Some []
        | x :: xs' =>
            match (match x with JUndef | JNull => Some [] | _ => to_key x end),
                  elems xs' with
            | Some k, Some ks => Some (k :: ks)
            | _, _ => None
            end
        end in
      match elems xs with Some ks => Some (join [44] ks) | None => None end
  | JObj fs =>
      match own_member fs (units "toString") with
      | None => Some (units "[object Object]")
      | Some _ => None
      end
  end.

(** The own keys of [linuxTools]. *)
Definition tool_names : list (list cu) :=
  [units "explainCommand"; units "suggestCommand"; units "fixError"; units "manPage"; units "dangerCheck"].

(** The properties [linuxTools] inherits from [Object.prototype]; all of
    them are truthy (functions, and [__proto__] gives [Object.prototype]). *)
Definition object_prototype_keys : list (list cu) :=
  [units "constructor"; units "__defineGetter__"; units "__defineSetter__"; units "hasOwnProperty"; units "__lookupGetter__"; units "__lookupSetter__"; units "isPrototypeOf"; units "propertyIsEnumerable"; units "toString"; units "valueOf"; units "__proto__"; units "toLocaleString"].

(** [linuxTools[k]] is truthy. *)
Definition has_tool (k : list cu) : bool :=
  existsb (list_eqb k) (tool_names ++ object_prototype_keys).

Inductive jserror : Type :=
  | TypeError
  | Error (message : list cu).

Inductive outcome (A : Type) : Type :=
  | Ok (a : A)
  | Throws (e : jserror).
Arguments Ok {A} a.
Arguments Throws {A} e.

(** [{ success: true, message: "Tool executed" }] *)
Record ToolAck : Type := { ack_success : bool; ack_message : string }.

Definition tool_executed : ToolAck :=
  {| ack_success := true; ack_message := "Tool executed" |}.

(** [executeLinuxTool(toolName, args, env)]: [args] and [env] are unused. *)
Definition executeLinuxTool (toolName args : jsval) : outcome ToolAck :=
  match to_key toolName with
  | None => Throws TypeError
  | Some k =>
      if has_tool k then Ok tool_executed
      else Throws (Error (units "Unknown tool: " ++ k))
  end.

(** ** The agent of src/src/server.ts *)

Inductive Role : Type := user | assistant.

(** A row of the [messages] table ([SELECT *] returns the id too). *)
Record Row : Type := { row_id : N; row_role : Role; row_content : jsval }.

(** The agent's SQL storage: the rows of [messages] in storage order, and
    the [AUTOINCREMENT] counter, which [DELETE] does not reset. *)
Record Db : Type := { db_rows : list Row; db_seq : N }.

(** After [initializeDatabase] on a fresh agent. *)
Definition db_init : Db := {| db_rows := []; db_seq := 0 |}.

(** [ORDER BY id ASC], as an insertion sort on the id. *)
Fixpoint insert_by_id (r : Row) (rs : list Row) : list Row :=
  match rs with
  | [] => [r]
  | r' :: rs' => if row_id r <=? row_id r' then r :: r' :: rs'
                 else r' :: insert_by_id r rs'
  end.

Fixpoint sort_by_id (rs : list Row) : list Row :=
  match rs with [] => [] | r :: rs' => insert_by_id r (sort_by_id rs') end.

(** [.toArray()] called on what [this.sql`...`] returns.  The agents SDK's
    [sql] returns a plain JavaScript array of rows, and an array has no
    [toArray] method: the call throws a TypeError ([None]). *)
Definition array_toArray (rows : list Row) : option (list Row) := None.

(** [getMessages]: [this.sql`SELECT * FROM messages ORDER BY id ASC`.toArray()];
    [None]: it throws. *)
Definition getMessages (db : Db) : option (list Row) :=
  array_toArray (sort_by_id (db_rows db)).

(** [DELETE FROM messages] *)
Definition clear_messages (db : Db) : Db :=
  {| db_rows := []; db_seq := db_seq db |}.

(** Messages the agent sends on the connection. *)
Inductive Outgoing : Type :=
  | OCleared
  | OHistory (messages : list Row)
  | OToolResult (result : ToolAck)
  | OError (message : string)
  | OStream (content : list cu)
  | OToolCalls (tools : list (jsval * jsval))
  | OToolResults (results : list jsval)
  | ODone (content : list cu).

(** What the hosted model does during one [streamText] run: its chunks, in
    order, and the final text ([None]: [result.text] rejects). *)
Inductive Chunk : Type :=
  | TextDelta (textDelta : list cu)
  | OtherChunk
  | StepFinish (toolCalls : list (jsval * jsval)) (toolResults : list jsval).

Record Generation : Type := { gen_chunks : list Chunk; gen_text : option (list cu) }.

(** [onChunk] and [onStepFinish] *)
Definition chunk_sends (c : Chunk) : list Outgoing :=
  match c with
  | TextDelta d => [OStream d]
  | OtherChunk => []
  | StepFinish calls results =>
      (match calls with [] => [] | _ => [OToolCalls calls] end)
      ++ (match results with [] => [] | _ => [OToolResults results] end)
  end.

Definition process_failed : string := "Failed to process message".
Definition generate_failed : string := "Failed to generate response. Please try again.".

(** A JavaScript string equal to a given ASCII literal ([===]). *)
Definition is_str (v : jsval) (s : string) : bool :=
  match v with JStr u => list_eqb u (units s) | _ => false end.

(** Reading a property of a parsed value: [null] and [undefined] throw; a
    primitive or an array has none of the names read here; an object has
    its own members ([Object.prototype] has none of these names). *)
Definition get_prop (v : jsval) (k : string) : option jsval :=
  match v with
  | JUndef | JNull => None
  | JObj fs => Some (match own_member fs (units k) with Some w => w | None => JUndef end)
  | _ => Some JUndef
  end.

(** The shape every state of the storage keeps: ids strictly increasing
    in storage order, none above the counter. *)
Definition wf_db (db : Db) : Prop :=
  StronglySorted (fun a b => row_id a < row_id b) (db_rows db) /\
  Forall (fun r => row_id r <= db_seq db) (db_rows db).

(** The request the client sends for a chat message. *)
Definition chat_request (content : list cu) : jsval :=
  JObj [(units "type", JStr (units "chat")); (units "content", JStr content)].

Section Agent.

(** The hosted model: what a [streamText] run does given the history. *)
Variable generate : list (Role * jsval) -> Generation.

(** Whether the storage accepts a bound value other than a string (a string
    always goes into the [TEXT NOT NULL] column). *)
Variable binds_other : jsval -> bool.

Definition binds (v : jsval) : bool :=
  match v with JStr _ => true | _ => binds_other v end.

(** [saveMessage]: [INSERT INTO messages (role, content) VALUES (...)];
    [None]: the statement throws. *)
Definition saveMessage (db : Db) (role : Role) (content : jsval) : option Db :=
  if binds content then
    Some {| db_rows := db_rows db ++ [{| row_id := db_seq db + 1; row_role := role;
                                         row_content := content |}];
            db_seq := db_seq db + 1 |}
  else None.

(** [handleChat]: the storage after it, and what it sends ([None]: it
    throws; [saveMessage] and [getMessages] are outside its [try], the
    rows saved before a throw stay). *)
Definition handleChat (db : Db) (userMessage : jsval) : Db * option (list Outgoing) :=
  match saveMessage db user userMessage with
  | None => (db, None)
  | Some db1 =>
      match getMessages db1 with
      | None => (db1, None)
      | Some rows =>
          let history := map (fun m => (row_role m, row_content m)) rows in
          let g := generate history in
          let streamed := flat_map chunk_sends (gen_chunks g) in
          match gen_text g with
          | None => (db1, Some (streamed ++ [OError generate_failed]))
          | Some response =>
              match saveMessage db1 assistant (JStr response) with
              | Some db2 => (db2, Some (streamed ++ [ODone response]))
              | None => (db1, Some (streamed ++ [OError generate_failed]))
              end
          end
      end
  end.

(** The [try] block of [onMessage] on the parsed message: the storage after
    it, and what it sends ([None]: it throws). *)
Definition dispatch (db : Db) (data : jsval) : Db * option (list Outgoing) :=
  match get_prop data "type" with
  | None => (db, None)
  | Some t =>
      if is_str t "chat" then
        match get_prop data "content" with
        | None => (db, None)
        | Some c => handleChat db c
        end
      else if is_str t "clear" then (clear_messages db, Some [OCleared])
      else if is_str t "get_history" then
        match getMessages db with
        | Some ms => (db, Some [OHistory ms])
        | None => (db, None)
        end
      else if is_str t "tool_confirm" then
        match get_prop data "toolName", get_prop data "args" with
        | Some n, Some a =>
            match executeLinuxTool n a with
            | Ok r => (db, Some [OToolResult r])
            | Throws _ => (db, None)
            end
        | _, _ => (db, None)
        end
      else (db, Some [])
  end.

(** [onMessage(connection, message)]: [parsed] is [JSON.parse(message)],
    [None] when it throws; a throw in the [try] block is answered with the
    generic error. *)
Definition onMessage (db : Db) (parsed : option jsval) : Db * list Outgoing :=
  match parsed with
  | None => (db, [OError process_failed])
  | Some data =>
      match dispatch db data with
      | (db', Some out) => (db', out)
      | (db', None) => (db', [OError process_failed])
      end
  end.

(** A run of the agent over a sequence of incoming messages. *)
Fixpoint run (db : Db) (msgs : list (option jsval)) : Db * list Outgoing :=
  match msgs with
  | [] => (db, [])
  | m :: ms => let (db1, out1) := onMessage db m in
               let (db2, out2) := run db1 ms in (db2, out1 ++ out2)
  end.

End Agent.

(** The [clear] request. *)
Definition clear_request : jsval := JObj [(units "type", JStr (units "clear"))].

(** A sample behaviour of the model, for concrete runs. *)
Definition demo_answer (_ : list (Role * jsval)) : Generation :=
  {| gen_chunks := [TextDelta (units "h"); OtherChunk; TextDelta (units "i")];
     gen_text := Some (units "hi") |}.

(** ** The browser client of src/unnamed/part_000 ([useAgent] and [App]) *)

(** A chat bubble: [isStreaming] absent reads as false. *)
Record UIMessage : Type := { ui_role : Role; ui_content : jsval; ui_streaming : bool }.

(** The hook's state: [messages], [isLoading], [streamingContentRef.current],
    and whether the socket's [readyState] is [OPEN]. *)
Record Client : Type := {
  messages : list UIMessage;
  isLoading : bool;
  streamingContent : list cu;
  socket_open : bool
}.

Definition set_messages (c : Client) (ms : list UIMessage) : Client :=
  {| messages := ms; isLoading := isLoading c; streamingContent := streamingContent c;
     socket_open := socket_open c |}.

Definition set_loading (c : Client) (b : bool) : Client :=
  {| messages := messages c; isLoading := b; streamingContent := streamingContent c;
     socket_open := socket_open c |}.

Definition set_streaming (c : Client) (s : list cu) : Client :=
  {| messages := messages c; isLoading := isLoading c; streamingContent := s;
     socket_open := socket_open c |}.

Definition row_to_ui (r : Row) : UIMessage :=
  {| ui_role := row_role r; ui_content := row_content r; ui_streaming := false |}.

(** A bubble being streamed, and the user's bubble. *)
Definition streaming_bubble (acc : list cu) : UIMessage :=
  {| ui_role := assistant; ui_content := JStr acc; ui_streaming := true |}.

Definition user_bubble (s : list cu) : UIMessage :=
  {| ui_role := user; ui_content := JStr s; ui_streaming := false |}.

(** [newMessages[newMessages.length - 1]] updated when it is streaming (the
    source assigns to that object, which only this state holds); [None]:
    the last message is absent or not streaming. *)
Definition update_last (ms : list UIMessage) (f : UIMessage -> UIMessage)
  : option (list UIMessage) :=
  match rev ms with
  | m :: rest => if ui_streaming m then Some (rev rest ++ [f m]) else None
  | [] => None
  end.

(** [⚠️ Error: ${data.message}] *)
Definition error_bubble (msg : string) : UIMessage :=
  {| ui_role := assistant;
     ui_content := JStr (warning_sign ++ units " Error: " ++ units msg);
     ui_streaming := false |}.

(** [ws.onmessage], on the messages the agent sends. *)
Definition on_event (c : Client) (e : Outgoing) : Client :=
  match e with
  | OHistory rows => set_messages c (map row_to_ui rows)
  | OStream d =>
      let acc := streamingContent c ++ d in
      let c1 := set_streaming c acc in
      match update_last (messages c)
              (fun m => {| ui_role := ui_role m; ui_content := JStr acc;
                           ui_streaming := ui_streaming m |}) with
      | Some ms => set_messages c1 ms
      | None => set_messages c1 (messages c ++ [streaming_bubble acc])
      end
  | ODone content =>
      let c1 := set_streaming c [] in
      let c2 := match update_last (messages c)
                        (fun m => {| ui_role := ui_role m; ui_content := JStr content;
                                     ui_streaming := false |}) with
                | Some ms => set_messages c1 ms
                | None => c1
                end in
      set_loading c2 false
  | OError msg => set_messages (set_loading c false) (messages c ++ [error_bubble msg])
  | OCleared => set_messages c []
  | OToolCalls _ | OToolResult _ | OToolResults _ => c
  end.

Definition on_events (c : Client) (es : list Outgoing) : Client := fold_left on_event es c.

(** [sendMessage(content)]; the second component is what goes on the
    socket. *)
Definition sendMessage (c : Client) (content : list cu) : Client * list jsval :=
  if socket_open c then
    ({| messages := messages c ++ [user_bubble content];
        isLoading := true; streamingContent := []; socket_open := true |},
     [chat_request content])
  else (c, []).

(** [String.prototype.trim]: strips [WhiteSpace] and [LineTerminator], the
    same set as [\s]. *)
Fixpoint trim_start (s : list cu) : list cu :=
  match s with c :: t => if is_space c then trim_start t else s | [] => [] end.

Definition trim (s : list cu) : list cu := rev (trim_start (rev (trim_start s))).

(** [handleSubmit] with the text box holding [input]: the new client state,
    the new text box, and what goes on the socket. *)
Definition handleSubmit (c : Client) (input : list cu) : Client * list cu * list jsval :=
  match trim input with
  | _ :: _ =>
      if negb (isLoading c) then
        let (c1, sent) := sendMessage c (trim input) in (c1, [], sent)
      else (c, input, [])
  | [] => (c, input, [])
  end.

(** ** Lemmas on the matcher *)

Lemma star_rest_app (p : cu -> bool) (s t u : list cu) :
  In t (star_rest p s) -> In (t ++ u) (star_rest p (s ++ u)).
Proof.
  revert t; induction s as [| c s IH]; intros t H; simpl in *.
  - destruct H as [<- | []]. destruct u; simpl; left; reflexivity.
  - destruct H as [<- | H]; [left; reflexivity|].
    right. destruct (p c); [apply IH; exact H | destruct H].
Qed.

Lemma rest_app (r : regex) (s t u : list cu) :
  In t (rest r s) -> In (t ++ u) (rest r (s ++ u)).
Proof.
  revert s t; induction r as [| p | r1 IH1 r2 IH2 | r1 IH1 r2 IH2 | p];
    intros s t H; simpl in *.
  - destruct H as [<- | []]. left; reflexivity.
  - destruct s as [| c s]; [destruct H|].
    simpl. destruct (p c); [|destruct H].
    destruct H as [<- | []]. left; reflexivity.
  - apply in_flat_map in H as (m & Hm & Ht).
    apply in_flat_map. exists (m ++ u). split; [apply IH1 | apply IH2]; assumption.
  - apply in_or_app. apply in_app_or in H as [H | H];
      [left; apply IH1 | right; apply IH2]; assumption.
  - apply star_rest_app; exact H.
Qed.

Lemma matches_here_In (r : regex) (s t : list cu) :
  In t (rest r s) -> matches_here r s = true.
Proof.
  unfold matches_here. destruct (rest r s); [intros []| reflexivity].
Qed.

Lemma test_here (r : regex) (s : list cu) :
  matches_here r s = true -> test r s = true.
Proof. intros H. destruct s; simpl; rewrite H; reflexivity. Qed.

(** A match of [r] anywhere in the string makes [r.test] succeed. *)
Lemma test_infix (r : regex) (pre s post t : list cu) :
  In t (rest r s) -> test r (pre ++ s ++ post) = true.
Proof.
  intros H. induction pre as [| c pre IH]; simpl.
  - apply rest_app with (u := post) in H.
    apply test_here, (matches_here_In _ _ _ H).
  - rewrite IH. apply orb_true_r.
Qed.

Lemma rest_lits (l u : list cu) : In u (rest (cat (map lit l)) (l ++ u)).
Proof.
  induction l as [| c l IH]; simpl; [left; reflexivity|].
  rewrite N.eqb_refl. simpl. rewrite app_nil_r. exact IH.
Qed.

Lemma rest_str (x : string) (u : list cu) : In u (rest (str x) (units x ++ u)).
Proof. apply rest_lits. Qed.

Lemma star_rest_all (p : cu -> bool) (w u : list cu) :
  forallb p w = true -> In u (star_rest p (w ++ u)).
Proof.
  induction w as [| c w IH]; simpl; intros H.
  - destruct u; left; reflexivity.
  - apply andb_prop in H as [Hc Hw]. right. rewrite Hc. apply IH, Hw.
Qed.

Lemma rest_plus (p : cu -> bool) (w u : list cu) :
  (0 < length w)%nat -> forallb p w = true -> In u (rest (plus p) (w ++ u)).
Proof.
  destruct w as [| c w]; simpl; [lia|]. intros _ H.
  apply andb_prop in H as [Hc Hw]. rewrite Hc. simpl. rewrite app_nil_r.
  apply star_rest_all, Hw.
Qed.

Lemma rest_cat_cons (r : regex) (rs : list regex) (s m t : list cu) :
  In m (rest r s) -> In t (rest (cat rs) m) -> In t (rest (cat (r :: rs)) s).
Proof. intros H1 H2. simpl. apply in_flat_map. exists m. auto. Qed.

Lemma rest_cat_nil (s : list cu) : In s (rest (cat []) s).
Proof. left; reflexivity. Qed.

Lemma find_risks_In (command : list cu) (p : DangerPattern) :
  In p dangerousPatterns -> test (pattern p) command = true ->
  In (to_risk p) (find_risks command).
Proof.
  intros Hin Ht. unfold find_risks. apply in_map. apply filter_In. auto.
Qed.

Lemma classify_loop_acc (table : list DangerPattern) (command : list cu)
  (acc : list Risk) :
  fold_left (fun acc p => if test (pattern p) command then acc ++ [to_risk p]
                          else acc) table acc
  = acc ++ map to_risk (filter (fun p => test (pattern p) command) table).
Proof.
  revert acc; induction table as [| p table IH]; intros acc; simpl.
  - rewrite app_nil_r. reflexivity.
  - rewrite IH. destruct (test (pattern p) command); simpl.
    + rewrite <- app_assoc. reflexivity.
    + reflexivity.
Qed.

Lemma spec_line_risk_line (r : Risk) : risk_line r = spec_line r.
Proof. destruct r as [[] why]; reflexivity. Qed.

Lemma join_spec_listing (rs : list Risk) :
  join nl (map risk_line rs) = spec_listing rs.
Proof.
  induction rs as [| r rs IH]; [reflexivity|].
  destruct rs as [| r' rs'].
  - simpl. rewrite app_nil_r. apply spec_line_risk_line.
  - change (join nl (map risk_line (r :: r' :: rs')))
      with (risk_line r ++ nl ++ join nl (map risk_line (r' :: rs'))).
    rewrite IH, spec_line_risk_line. reflexivity.
Qed.

(** ** Claims *)

(** C1: for every command, the findings are those of the specification's
    loop over the whole table (each matching signature appends its finding,
    in table order, nothing skipped and nothing merged); every matching
    signature contributes its finding, and there are exactly as many
    findings as matching signatures. *)
Theorem classify_all_signatures_in_order (command : list cu) :
  risks (dangerCheck command) = classify_loop dangerousPatterns command /\
  (forall p, In p dangerousPatterns -> test (pattern p) command = true ->
             In (to_risk p) (risks (dangerCheck command))) /\
  length (risks (dangerCheck command))
  = length (filter (fun p => test (pattern p) command) dangerousPatterns).
Proof.
  split; [|split].
  - unfold classify_loop. rewrite classify_loop_acc. reflexivity.
  - intros p Hin Ht. apply find_risks_In; assumption.
  - simpl. unfold find_risks. apply length_map.
Qed.

(** Two signatures with the same finding both report it: no deduplication. *)
Example classify_keeps_duplicates :
  risks (classify "curl a | sh; wget b | sh")
  = [to_risk sig_curl; to_risk sig_wget] /\ to_risk sig_curl = to_risk sig_wget.
Proof. split; vm_compute; reflexivity. Qed.

(** C2: [classify("rm -rf /")] is exactly the root-delete finding followed
    by the recursive-force-delete finding. *)
Theorem classify_rm_rf_root :
  risks (classify "rm -rf /")
  = [ {| r_risk := critical; r_reason := "Deletes root filesystem" |};
      {| r_risk := high; r_reason := "Recursive force delete without confirmation" |} ].
Proof. vm_compute. reflexivity. Qed.

(** C3 as stated: the command ["chmod -R 777 /"] matches the chmod signature
    but gets no finding with the reason "Removes all file permission
    security" (the code's reason reads "permissions"). *)
Lemma chmod_reason_counterexample :
  test (pattern sig_chmod) (units "chmod -R 777 /") = true /\
  ~ In {| r_risk := high; r_reason := "Removes all file permission security" |}
       (risks (classify "chmod -R 777 /")).
Proof.
  split; [vm_compute; reflexivity|].
  vm_compute. intros [H | []]. discriminate H.
Qed.

(** C3 amended: every command the chmod -R 777 signature matches gets the
    finding of level high with reason "Removes all file permissions
    security". *)
Theorem chmod_finding (command : list cu) :
  test (pattern sig_chmod) command = true ->
  In {| r_risk := high; r_reason := "Removes all file permissions security" |}
     (risks (dangerCheck command)).
Proof.
  intros H. apply (find_risks_In command sig_chmod); [simpl; tauto | exact H].
Qed.

Lemma chmod_finding_witness :
  test (pattern sig_chmod) (units "chmod -R 777 /") = true /\
  In {| r_risk := high; r_reason := "Removes all file permissions security" |}
     (risks (classify "chmod -R 777 /")).
Proof.
  split; [vm_compute; reflexivity|].
  apply (chmod_finding (units "chmod -R 777 /")). vm_compute. reflexivity.
Defined.

(** C4: with findings, the instruction restates the command, lists each
    finding as [- [RISK_LEVEL] reason] (level upper-cased) in order, then
    the four fixed sections; without findings, it is the fixed no-danger
    text restating the command and the four fixed reminders. *)
Theorem instruction_template (command : list cu) :
  (risks (dangerCheck command) <> [] ->
   instruction (dangerCheck command)
   = warning_sign ++ units " DANGER DETECTED in command: " ++ command
     ++ nl ++ nl ++ units "Risks found:" ++ nl
     ++ spec_listing (risks (dangerCheck command))
     ++ nl ++ nl ++ units "Provide:" ++ nl
     ++ units "1. **Why It's Dangerous**: Detailed explanation of what could go wrong" ++ nl
     ++ units "2. **Safer Alternative**: A safer way to accomplish the same goal" ++ nl
     ++ units "3. **If You Must Proceed**: Precautions and backup steps" ++ nl
     ++ units "4. **Recovery Options**: What to do if something goes wrong") /\
  (risks (dangerCheck command) = [] ->
   instruction (dangerCheck command)
   = check_mark ++ units " No obvious dangers detected in: " ++ command
     ++ nl ++ nl ++ units "However, always:" ++ nl
     ++ units "1. Understand what a command does before running it" ++ nl
     ++ units "2. Test with dry-run flags when available" ++ nl
     ++ units "3. Have backups for important data" ++ nl
     ++ units "4. Use sudo only when necessary").
Proof.
  unfold dangerCheck; simpl. split; intros H.
  - destruct (find_risks command) as [| r rs] eqn:E; [contradiction H; reflexivity|].
    simpl. unfold danger_instruction. rewrite <- E, join_spec_listing, E.
    reflexivity.
  - rewrite H. reflexivity.
Qed.

Lemma instruction_template_witness :
  instruction (classify "rm -rf /")
  = warning_sign ++ units " DANGER DETECTED in command: " ++ units "rm -rf /"
    ++ nl ++ nl ++ units "Risks found:" ++ nl
    ++ units "- [CRITICAL] Deletes root filesystem" ++ nl
    ++ units "- [HIGH] Recursive force delete without confirmation"
    ++ danger_tail /\
  instruction (classify "ls -la")
  = check_mark ++ units " No obvious dangers detected in: " ++ units "ls -la"
    ++ safe_tail.
Proof.
  unfold classify. split.
  - rewrite (proj1 (instruction_template (units "rm -rf /"))).
    + vm_compute. reflexivity.
    + vm_compute. discriminate.
  - rewrite (proj2 (instruction_template (units "ls -la"))).
    + reflexivity.
    + vm_compute. reflexivity.
Defined.

(** C5: every command containing [:(){ :|:& };:] is flagged, with the
    critical fork-bomb finding. *)
Theorem fork_bomb_detected (pre post : list cu) :
  hasDanger (dangerCheck (pre ++ units ":(){ :|:& };:" ++ post)) = true /\
  In {| r_risk := critical; r_reason := "Fork bomb - crashes system" |}
     (risks (dangerCheck (pre ++ units ":(){ :|:& };:" ++ post))).
Proof.
  assert (Ht : test (pattern sig_fork_bomb) (pre ++ units ":(){ :|:& };:" ++ post)
               = true).
  { apply test_infix with (t := []). vm_compute. left; reflexivity. }
  assert (Hin : In (to_risk sig_fork_bomb)
                   (find_risks (pre ++ units ":(){ :|:& };:" ++ post))).
  { apply find_risks_In; [simpl; tauto | exact Ht]. }
  split; [|exact Hin].
  simpl. destruct (find_risks _); [destruct Hin | reflexivity].
Qed.

(** C6: the piped curl install yields exactly the remote-script finding. *)
Theorem classify_curl_pipe_bash :
  risks (classify "curl http://example.com/install.sh | bash")
  = [ {| r_risk := high; r_reason := "Executes remote script without review" |} ].
Proof. vm_compute. reflexivity. Qed.

(** C7: [dangerCheck] is a total function; the empty command and ["ls -la"]
    are not flagged and have no findings. *)
Theorem classify_total_and_benign :
  (forall command, exists res, dangerCheck command = res) /\
  hasDanger (classify "") = false /\ risks (classify "") = [] /\
  hasDanger (classify "ls -la") = false /\ risks (classify "ls -la") = [].
Proof.
  split; [intros command; exists (dangerCheck command); reflexivity|].
  vm_compute. repeat split.
Qed.

(** C8: within any sequence of invocations, two invocations on the same
    command return the same result. *)
Theorem session_deterministic (calls : list (list cu)) (i j : nat)
  (command : list cu) :
  nth_error calls i = Some command -> nth_error calls j = Some command ->
  nth_error (run_session calls) i = nth_error (run_session calls) j.
Proof.
  intros Hi Hj. unfold run_session.
  rewrite !nth_error_map, Hi, Hj. reflexivity.
Qed.

Lemma session_deterministic_witness :
  nth_error (run_session [units "rm -rf /"; units "ls -la"; units "rm -rf /"]) 0
  = nth_error (run_session [units "rm -rf /"; units "ls -la"; units "rm -rf /"]) 2.
Proof.
  apply (session_deterministic _ 0 2 (units "rm -rf /")); reflexivity.
Defined.

(** C9: the root-delete signature fires on every recursive delete of an
    absolute path, whatever stands before [rm] (["sudo "] for one),
    whatever follows the slash, and for any runs of white space: the
    command gets the root-delete finding first, followed by the
    recursive-force-delete finding when the [f] flag is there; so
    ["rm -rf /home/user"] gets both. *)
Theorem rm_root_fires_on_any_absolute_path (pre post w1 w2 : list cu) (f : bool) :
  (0 < length w1)%nat -> forallb ws w1 = true ->
  (0 < length w2)%nat -> forallb ws w2 = true ->
  (exists more,
     risks (dangerCheck (pre ++ units "rm" ++ w1 ++ units "-r"
                         ++ (if f then units "f" else []) ++ w2 ++ units "/" ++ post))
     = to_risk sig_rm_root :: (if f then to_risk sig_rm_rf :: more else more)) /\
  risks (classify "rm -rf /home/user")
  = [ {| r_risk := critical; r_reason := "Deletes root filesystem" |};
      {| r_risk := high; r_reason := "Recursive force delete without confirmation" |} ].
Proof.
  intros Hl1 Hw1 Hl2 Hw2. split; [|vm_compute; reflexivity].
  set (F := if f then units "f" else []).
  assert (H1 : test (pattern sig_rm_root)
                 (pre ++ units "rm" ++ w1 ++ units "-r" ++ F ++ w2 ++ units "/" ++ post)
               = true).
  { pose proof (test_infix (pattern sig_rm_root) pre
                  (units "rm" ++ w1 ++ units "-r" ++ F ++ w2 ++ units "/" ++ post)
                  [] post) as H.
    rewrite app_nil_r in H. apply H. unfold sig_rm_root, mk; cbn [pattern].
    eapply rest_cat_cons; [apply rest_str|].
    eapply rest_cat_cons; [apply rest_plus; eassumption|].
    eapply rest_cat_cons; [apply rest_str|].
    eapply rest_cat_cons.
    { unfold opt, F. destruct f; cbn [rest]; apply in_or_app;
        [left; apply (rest_str "f") | right; left; reflexivity]. }
    eapply rest_cat_cons; [apply rest_plus; eassumption|].
    eapply rest_cat_cons; [apply rest_str|].
    apply rest_cat_nil. }
  unfold F in *. clear F. destruct f; cbv beta iota in H1 |- *.
  - assert (H2 : test (pattern sig_rm_rf)
                   (pre ++ units "rm" ++ w1 ++ units "-r" ++ units "f" ++ w2 ++ units "/" ++ post)
                 = true).
    { pose proof (test_infix (pattern sig_rm_rf) pre
                    (units "rm" ++ w1 ++ units "-rf" ++ w2 ++ units "/" ++ post)
                    [] (w2 ++ units "/" ++ post)) as H.
      rewrite app_nil_r in H. apply H. unfold sig_rm_rf, mk; cbn [pattern].
      eapply rest_cat_cons; [apply rest_str|].
      eapply rest_cat_cons; [apply rest_plus; eassumption|].
      eapply rest_cat_cons; [apply rest_str|].
      apply rest_cat_nil. }
    unfold dangerCheck; cbn [risks]. unfold find_risks, dangerousPatterns. cbn [filter].
    rewrite H1, H2. eexists. reflexivity.
  - unfold dangerCheck; cbn [risks]. unfold find_risks, dangerousPatterns. cbn [filter].
    rewrite H1. eexists. reflexivity.
Qed.

Lemma rm_root_fires_on_any_absolute_path_witness :
  ((0 < length (units " "))%nat /\ forallb ws (units " ") = true /\
   (0 < length (units "  "))%nat /\ forallb ws (units "  ") = true) /\
  exists more,
    risks (dangerCheck (units "sudo " ++ units "rm" ++ units " " ++ units "-r"
                        ++ units "f" ++ units "  " ++ units "/" ++ units "var"))
    = to_risk sig_rm_root :: to_risk sig_rm_rf :: more.
Proof.
  split; [split; [simpl; lia | split; [reflexivity | split; [simpl; lia | reflexivity]]]|].
  refine (proj1 (rm_root_fires_on_any_absolute_path (units "sudo ") (units "var")
                   (units " ") (units "  ") true _ _ _ _)); [simpl; lia | reflexivity | simpl; lia | reflexivity].
Defined.

(** C10: no finding ever has the level low. *)
Theorem no_low_findings (command : list cu) (r : Risk) :
  In r (risks (dangerCheck command)) -> r_risk r <> low.
Proof.
  simpl. unfold find_risks. intros H.
  apply in_map_iff in H as (p & <- & Hp).
  apply filter_In in Hp as [Hp _].
  simpl in Hp. repeat destruct Hp as [<- | Hp]; try discriminate. destruct Hp.
Qed.

Lemma no_low_findings_witness :
  In (to_risk sig_rm_rf) (risks (classify "rm -rf /")) /\
  r_risk (to_risk sig_rm_rf) <> low.
Proof.
  assert (H : In (to_risk sig_rm_rf) (risks (classify "rm -rf /"))).
  { vm_compute. right; left; reflexivity. }
  split; [exact H | apply (no_low_findings (units "rm -rf /")); exact H].
Defined.

(** ** Properties of the other tools and of [executeLinuxTool] *)

Lemma list_eqb_true (a b : list cu) : list_eqb a b = true <-> a = b.
Proof.
  unfold list_eqb. destruct (list_eq_dec N.eq_dec a b); split; congruence.
Qed.

(** An empty [distro] is treated as no distro: the result is the same,
    with distro "generic" and no "(for ...)"; a non-empty one is kept and
    inserted as " (for d)" right after the task. *)
Theorem suggestCommand_distro (task : list cu) (c : cu) (t : list cu) :
  suggestCommand task (Some []) = suggestCommand task None /\
  sg_distro (suggestCommand task None) = units "generic" /\
  sg_distro (suggestCommand task (Some (c :: t))) = c :: t /\
  exists rest,
    sg_instruction (suggestCommand task None)
    = units "Suggest the best command(s) to: " ++ task ++ rest /\
    sg_instruction (suggestCommand task (Some (c :: t)))
    = units "Suggest the best command(s) to: " ++ task
      ++ units " (for " ++ (c :: t) ++ units ")" ++ rest.
Proof.
  split; [reflexivity|]. split; [reflexivity|]. split; [reflexivity|].
  eexists. split; simpl; [reflexivity|].
  rewrite <- !app_assoc. reflexivity.
Qed.

(** The same for [fixError]: an empty [context] is no context ("unknown",
    no "(Context: ...)"); a non-empty one is kept and inserted after the
    error. *)
Theorem fixError_context (error : list cu) (c : cu) (t : list cu) :
  fixError error (Some []) = fixError error None /\
  fx_context (fixError error None) = units "unknown" /\
  fx_context (fixError error (Some (c :: t))) = c :: t /\
  exists rest,
    fx_instruction (fixError error None)
    = units "Help troubleshoot this error: " ++ error ++ rest /\
    fx_instruction (fixError error (Some (c :: t)))
    = units "Help troubleshoot this error: " ++ error
      ++ units " (Context: " ++ (c :: t) ++ units ")" ++ rest.
Proof.
  split; [reflexivity|]. split; [reflexivity|]. split; [reflexivity|].
  eexists. split; simpl; [reflexivity|].
  rewrite <- !app_assoc. reflexivity.
Qed.

(** [executeLinuxTool] returns [{success: true, message: "Tool executed"}]
    exactly when the property key of the name is one of the five tools or
    a property inherited from [Object.prototype]; otherwise it throws. *)
Theorem executeLinuxTool_ok (toolName args : jsval) (r : ToolAck) :
  executeLinuxTool toolName args = Ok r <->
  r = tool_executed /\
  exists k, to_key toolName = Some k /\ In k (tool_names ++ object_prototype_keys).
Proof.
  unfold executeLinuxTool. destruct (to_key toolName) as [k|].
  - destruct (has_tool k) eqn:E.
    + split.
      * intros H; injection H as <-. split; [reflexivity|].
        exists k. split; [reflexivity|].
        apply existsb_exists in E as (k' & Hin & Heq).
        apply list_eqb_true in Heq. subst k'. exact Hin.
      * intros [-> _]. reflexivity.
    + split; [discriminate|].
      intros [_ (k' & Hk & Hin)]. injection Hk as <-.
      assert (existsb (list_eqb k) (tool_names ++ object_prototype_keys) = true)
        as H by (apply existsb_exists; exists k; split; [exact Hin|];
                 apply list_eqb_true; reflexivity).
      unfold has_tool in E. congruence.
  - split; [discriminate|]. intros [_ (k & Hk & _)]. discriminate Hk.
Qed.

(** A string name that is neither a tool nor inherited throws
    [Error("Unknown tool: " + name)]. *)
Theorem executeLinuxTool_unknown (s : list cu) (args : jsval) :
  ~ In s (tool_names ++ object_prototype_keys) ->
  executeLinuxTool (JStr s) args = Throws (Error (units "Unknown tool: " ++ s)).
Proof.
  intros Hn. unfold executeLinuxTool. simpl.
  destruct (has_tool s) eqn:E; [|reflexivity].
  apply existsb_exists in E as (k & Hin & Heq).
  apply list_eqb_true in Heq. subst k. contradiction.
Qed.

Lemma executeLinuxTool_unknown_witness :
  ~ In (units "rm") (tool_names ++ object_prototype_keys) /\
  executeLinuxTool (JStr (units "rm")) JNull
  = Throws (Error (units "Unknown tool: " ++ units "rm")).
Proof.
  assert (H : ~ In (units "rm") (tool_names ++ object_prototype_keys)).
  { vm_compute. intros H. repeat (destruct H as [H | H]; [discriminate H|]). exact H. }
  split; [exact H | apply (executeLinuxTool_unknown (units "rm") JNull H)].
Defined.

(** ** Properties of the agent's message log *)

(** ** Properties of the agent *)

Lemma ssorted_snoc {A} (R : A -> A -> Prop) (l : list A) (x : A) :
  StronglySorted R l -> Forall (fun y => R y x) l -> StronglySorted R (l ++ [x]).
Proof.
  induction l as [| a l IH]; intros Hs Hf; simpl.
  - repeat constructor.
  - apply StronglySorted_inv in Hs as [Hs Ha]. inversion Hf; subst.
    constructor; [apply IH; assumption|].
    apply Forall_app. split; [assumption | constructor; [assumption | constructor]].
Qed.

Lemma saveMessage_wf (bo : jsval -> bool) (db db' : Db) (role : Role) (c : jsval) :
  wf_db db -> saveMessage bo db role c = Some db' -> wf_db db'.
Proof.
  unfold saveMessage. destruct (binds bo c); [|discriminate].
  intros [Hs Hf] H. injection H as <-. unfold wf_db; simpl. split.
  - apply ssorted_snoc; [exact Hs|].
    eapply Forall_impl; [|exact Hf]. simpl; intros; lia.
  - apply Forall_app. split; [|constructor; [simpl; lia | constructor]].
    eapply Forall_impl; [|exact Hf]. simpl; intros; lia.
Qed.

(** [getMessages] throws, so [handleChat] ends right after saving the
    user's message. *)
Lemma handleChat_throws gen bo db c :
  handleChat gen bo db c
  = (match saveMessage bo db user c with Some db1 => db1 | None => db end, None).
Proof. unfold handleChat. destruct (saveMessage bo db user c); reflexivity. Qed.

(** Each message leaves the storage as it was, cleared, or with one more
    row saved as the user's. *)
Lemma onMessage_effect gen bo db m :
  fst (onMessage gen bo db m) = db \/
  fst (onMessage gen bo db m) = clear_messages db \/
  exists c, saveMessage bo db user c = Some (fst (onMessage gen bo db m)).
Proof.
  unfold onMessage. destruct m as [data|]; [|left; reflexivity].
  assert (H : fst (dispatch gen bo db data) = db \/
              fst (dispatch gen bo db data) = clear_messages db \/
              exists c, saveMessage bo db user c = Some (fst (dispatch gen bo db data))).
  { unfold dispatch.
    destruct (get_prop data "type") as [t|]; [|left; reflexivity].
    destruct (is_str t "chat").
    { destruct (get_prop data "content") as [c|]; [|left; reflexivity].
      rewrite handleChat_throws. simpl.
      destruct (saveMessage bo db user c) as [db1|] eqn:E;
        [right; right; exists c; exact E | left; reflexivity]. }
    destruct (is_str t "clear"); [right; left; reflexivity|].
    destruct (is_str t "get_history"); [left; reflexivity|].
    destruct (is_str t "tool_confirm"); [|left; reflexivity].
    destruct (get_prop data "toolName"), (get_prop data "args");
      try (left; reflexivity).
    destruct (executeLinuxTool _ _); left; reflexivity. }
  destruct (dispatch gen bo db data) as [db' [out|]]; exact H.
Qed.

(** Each message is answered only with [cleared], [tool_result] or the
    generic processing error, or not at all. *)
Lemma onMessage_replies gen bo db m o :
  In o (snd (onMessage gen bo db m)) ->
  o = OCleared \/ o = OError process_failed \/ exists r, o = OToolResult r.
Proof.
  unfold onMessage. destruct m as [data|]; [intros H | intros [<- | []]; right; left; reflexivity].
  assert (Hd : forall out, snd (dispatch gen bo db data) = Some out -> In o out ->
               o = OCleared \/ o = OError process_failed \/ exists r, o = OToolResult r).
  { intros out. unfold dispatch.
    destruct (get_prop data "type") as [t|]; [|discriminate].
    destruct (is_str t "chat").
    { destruct (get_prop data "content") as [c|]; [|discriminate].
      rewrite handleChat_throws. discriminate. }
    destruct (is_str t "clear").
    { intros Hs; injection Hs as <-. intros [<- | []]. left; reflexivity. }
    destruct (is_str t "get_history"); [discriminate|].
    destruct (is_str t "tool_confirm").
    - destruct (get_prop data "toolName"), (get_prop data "args"); try discriminate.
      destruct (executeLinuxTool _ _) as [r|]; [|discriminate].
      intros Hs; injection Hs as <-. intros [<- | []]. right; right; exists r; reflexivity.
    - intros Hs; injection Hs as <-. intros []. }
  revert H. destruct (dispatch gen bo db data) as [db' [out|]] eqn:E; intros H.
  - apply (Hd out); [reflexivity | exact H].
  - destruct H as [<- | []]. right; left; reflexivity.
Qed.

Lemma onMessage_wf gen bo db m :
  wf_db db -> wf_db (fst (onMessage gen bo db m)).
Proof.
  intros Hw. destruct (onMessage_effect gen bo db m) as [-> | [-> | [c Hc]]].
  - exact Hw.
  - split; constructor.
  - eapply saveMessage_wf; eassumption.
Qed.

Lemma run_wf gen bo db msgs : wf_db db -> wf_db (fst (run gen bo db msgs)).
Proof.
  revert db; induction msgs as [| m ms IH]; intros db Hw; [exact Hw|].
  simpl. pose proof (onMessage_wf gen bo db m Hw) as H1.
  destruct (onMessage gen bo db m) as [db1 out1].
  specialize (IH db1 H1). destruct (run gen bo db1 ms) as [db2 out2]. exact IH.
Qed.

(** A chat request is never answered: the agent saves the user's message
    (when the storage takes its content; a string always goes in, with the
    next id), [getMessages] then throws, so the model is never asked, no
    answer is saved, and the only reply is "Failed to process message". *)
Theorem chat_request_reply gen bo db (v : jsval) (s : list cu) :
  onMessage gen bo db
    (Some (JObj [(units "type", JStr (units "chat")); (units "content", v)]))
  = (match saveMessage bo db user v with Some db1 => db1 | None => db end,
     [OError process_failed]) /\
  onMessage gen bo db (Some (chat_request s))
  = ({| db_rows := db_rows db
                   ++ [{| row_id := db_seq db + 1; row_role := user; row_content := JStr s |}];
        db_seq := db_seq db + 1 |},
     [OError process_failed]).
Proof.
  split.
  - unfold onMessage, dispatch, handleChat. simpl.
    destruct (saveMessage bo db user v); reflexivity.
  - reflexivity.
Qed.

(** A [get_history] request never gets the history: [getMessages] throws,
    the reply is "Failed to process message", and the log is unchanged. *)
Theorem get_history_fails gen bo db :
  onMessage gen bo db (Some (JObj [(units "type", JStr (units "get_history"))]))
  = (db, [OError process_failed]).
Proof. reflexivity. Qed.

(** Whatever it is sent and whatever the model would do, the agent started
    on a fresh database never stores an assistant message, and never sends
    history, streamed text, tool calls or a [done]: its only replies are
    [cleared], [tool_result] and the generic processing error. *)
Theorem agent_never_answers gen bo msgs :
  Forall (fun r => row_role r = user) (db_rows (fst (run gen bo db_init msgs))) /\
  (forall o, In o (snd (run gen bo db_init msgs)) ->
     o = OCleared \/ o = OError process_failed \/ exists r, o = OToolResult r).
Proof.
  assert (Hgen : forall db, Forall (fun r => row_role r = user) (db_rows db) ->
    Forall (fun r => row_role r = user) (db_rows (fst (run gen bo db msgs))) /\
    (forall o, In o (snd (run gen bo db msgs)) ->
       o = OCleared \/ o = OError process_failed \/ exists r, o = OToolResult r)).
  { induction msgs as [| m ms IH]; intros db Hu.
    - split; [exact Hu | intros o []].
    - simpl.
      assert (Hu1 : Forall (fun r => row_role r = user) (db_rows (fst (onMessage gen bo db m)))).
      { destruct (onMessage_effect gen bo db m) as [-> | [-> | [c Hc]]];
          [exact Hu | constructor |].
        unfold saveMessage in Hc. destruct (binds bo c); [|discriminate].
        injection Hc as <-. simpl. apply Forall_app. split; [exact Hu|].
        constructor; [reflexivity | constructor]. }
      pose proof (onMessage_replies gen bo db m) as Hr.
      destruct (onMessage gen bo db m) as [db1 out1]. simpl in Hu1, Hr.
      destruct (IH db1 Hu1) as [Hu2 Hr2].
      destruct (run gen bo db1 ms) as [db2 out2]. simpl in *.
      split; [exact Hu2|]. intros o Ho. apply in_app_or in Ho as [Ho | Ho];
        [apply Hr, Ho | apply Hr2, Ho]. }
  apply Hgen. constructor.
Qed.

Lemma saveMessage_fresh bo db db' role c :
  saveMessage bo db role c = Some db' ->
  db_seq db <= db_seq db' /\
  forall r, In r (db_rows db') -> In r (db_rows db) \/ db_seq db < row_id r.
Proof.
  unfold saveMessage. destruct (binds bo c); [|discriminate].
  intros H; injection H as <-. simpl. split; [lia|].
  intros r Hr. apply in_app_or in Hr as [Hr | [<- | []]]; [left; exact Hr|].
  right; simpl; lia.
Qed.

Lemma onMessage_fresh gen bo db m :
  db_seq db <= db_seq (fst (onMessage gen bo db m)) /\
  forall r, In r (db_rows (fst (onMessage gen bo db m))) ->
            In r (db_rows db) \/ db_seq db < row_id r.
Proof.
  destruct (onMessage_effect gen bo db m) as [-> | [-> | [c Hc]]].
  - split; [lia | intros r Hr; left; exact Hr].
  - simpl. split; [lia | intros r []].
  - exact (saveMessage_fresh _ _ _ _ _ Hc).
Qed.

Lemma run_fresh gen bo db msgs :
  db_seq db <= db_seq (fst (run gen bo db msgs)) /\
  forall r, In r (db_rows (fst (run gen bo db msgs))) ->
            In r (db_rows db) \/ db_seq db < row_id r.
Proof.
  revert db; induction msgs as [| m ms IH]; intros db.
  - simpl. split; [lia | intros r Hr; left; exact Hr].
  - simpl. destruct (onMessage_fresh gen bo db m) as [Hs1 Hr1].
    destruct (onMessage gen bo db m) as [db1 out1]. simpl in Hs1, Hr1.
    destruct (IH db1) as [Hs2 Hr2].
    destruct (run gen bo db1 ms) as [db2 out2]. simpl in *.
    split; [lia|]. intros r Hr.
    destruct (Hr2 r Hr) as [H | H]; [apply Hr1, H | right; lia].
Qed.

Lemma ssorted_id_unique (rs : list Row) (a b : Row) :
  StronglySorted (fun x y => row_id x < row_id y) rs ->
  In a rs -> In b rs -> row_id a = row_id b -> a = b.
Proof.
  induction rs as [| x rs IH]; intros Hs Ha Hb Hid; [destruct Ha|].
  apply StronglySorted_inv in Hs as [Hs Hf]. rewrite Forall_forall in Hf.
  destruct Ha as [<- | Ha], Hb as [<- | Hb].
  - reflexivity.
  - specialize (Hf b Hb). lia.
  - specialize (Hf a Ha). lia.
  - apply IH; assumption.
Qed.

(** An id is never given to two different messages, even across [clear]:
    a row of the log at one point and a row of the log at any later point
    with the same id are the same row. *)
Theorem message_ids_never_reused gen bo msgs1 msgs2 r r' :
  In r (db_rows (fst (run gen bo db_init msgs1))) ->
  In r' (db_rows (fst (run gen bo (fst (run gen bo db_init msgs1)) msgs2))) ->
  row_id r = row_id r' -> r = r'.
Proof.
  set (db1 := fst (run gen bo db_init msgs1)).
  assert (Hw : wf_db db1) by (apply run_wf; split; constructor).
  intros Hr Hr' Hid. destruct (run_fresh gen bo db1 msgs2) as [_ Hf].
  destruct (Hf r' Hr') as [H | H].
  - apply (ssorted_id_unique (db_rows db1)); [apply Hw | assumption..].
  - destruct Hw as [_ Hb]. rewrite Forall_forall in Hb. specialize (Hb r Hr). lia.
Qed.

Lemma message_ids_never_reused_witness :
  In {| row_id := 1; row_role := user; row_content := JStr (units "a") |}
     (db_rows (fst (run demo_answer (fun _ => false) db_init
                        [Some (chat_request (units "a"))]))) /\
  {| row_id := 1; row_role := user; row_content := JStr (units "a") |} =
  {| row_id := 1; row_role := user; row_content := JStr (units "a") |}.
Proof.
  split; [vm_compute; left; reflexivity|].
  apply (message_ids_never_reused demo_answer (fun _ => false)
           [Some (chat_request (units "a"))] [Some (chat_request (units "b"))]).
  - vm_compute. left; reflexivity.
  - vm_compute. left; reflexivity.
  - reflexivity.
Defined.

(** After [clear] the log is empty but the id counter is kept, so the next
    message gets an id above every id handed out before. *)
Theorem clear_keeps_counter gen bo db s :
  wf_db db ->
  onMessage gen bo db (Some clear_request) = (clear_messages db, [OCleared]) /\
  (forall r r', In r (db_rows db) ->
     In r' (db_rows (fst (onMessage gen bo (clear_messages db) (Some (chat_request s))))) ->
     row_id r < row_id r').
Proof.
  intros [_ Hb]. split; [reflexivity|].
  intros r r' Hr Hr'. rewrite Forall_forall in Hb. specialize (Hb r Hr).
  destruct (onMessage_fresh gen bo (clear_messages db) (Some (chat_request s))) as [_ Hf].
  destruct (Hf r' Hr') as [[] | H]. simpl in H. lia.
Qed.

Lemma clear_keeps_counter_witness :
  wf_db (fst (onMessage demo_answer (fun _ => false) db_init
                        (Some (chat_request (units "a"))))) /\
  1 < 2.
Proof.
  set (db := fst (onMessage demo_answer (fun _ => false) db_init
                            (Some (chat_request (units "a"))))).
  assert (Hw : wf_db db) by (apply onMessage_wf; split; constructor).
  split; [exact Hw|].
  apply (proj2 (clear_keeps_counter demo_answer (fun _ => false) db (units "b") Hw)
           {| row_id := 1; row_role := user; row_content := JStr (units "a") |}
           {| row_id := 2; row_role := user; row_content := JStr (units "b") |}).
  - vm_compute. left; reflexivity.
  - vm_compute. left; reflexivity.
Defined.

(** [tool_confirm] leaves the log alone and answers [tool_result] when
    [executeLinuxTool] returns, the generic processing error when it
    throws (a missing [toolName] is the key "undefined", so it throws). *)
Theorem tool_confirm_reply gen bo db toolName args :
  onMessage gen bo db
    (Some (JObj [(units "type", JStr (units "tool_confirm"));
                 (units "toolName", toolName); (units "args", args)]))
  = (db, match executeLinuxTool toolName args with
         | Ok r => [OToolResult r]
         | Throws _ => [OError process_failed]
         end) /\
  onMessage gen bo db (Some (JObj [(units "type", JStr (units "tool_confirm"))]))
  = (db, [OError process_failed]).
Proof.
  split; [|reflexivity].
  unfold onMessage, dispatch. simpl.
  destruct (executeLinuxTool toolName args); reflexivity.
Qed.

(** What [onMessage] does with a message it cannot use: a body that is
    not JSON, or [null], gets the generic processing error; any other
    value whose [type] is none of the four request names gets no answer
    at all; in both cases the log is unchanged. *)
Theorem unusable_messages gen bo db (v t : jsval) :
  onMessage gen bo db None = (db, [OError process_failed]) /\
  onMessage gen bo db (Some JNull) = (db, [OError process_failed]) /\
  (get_prop v "type" = Some t ->
   is_str t "chat" = false -> is_str t "clear" = false ->
   is_str t "get_history" = false -> is_str t "tool_confirm" = false ->
   onMessage gen bo db (Some v) = (db, [])).
Proof.
  split; [reflexivity|]. split; [reflexivity|].
  intros Ht H1 H2 H3 H4. unfold onMessage, dispatch. rewrite Ht, H1, H2, H3, H4.
  reflexivity.
Qed.

Lemma unusable_messages_witness :
  get_prop (JStr (units "chat")) "type" = Some JUndef /\
  onMessage demo_answer (fun _ => false) db_init (Some (JStr (units "chat")))
  = (db_init, []).
Proof.
  split; [reflexivity|].
  apply (unusable_messages demo_answer (fun _ => false) db_init
           (JStr (units "chat")) JUndef); reflexivity.
Defined.

(** ** Properties of the browser client *)

(** A chat message sent from the client, with the agent's reply fed back:
    the client shows the user's bubble and then the error bubble
    "Failed to process message", and loading is over; no answer ever
    appears. *)
Theorem chat_exchange_client gen bo db c s :
  socket_open c = true ->
  snd (sendMessage c s) = [chat_request s] /\
  on_events (fst (sendMessage c s)) (snd (onMessage gen bo db (Some (chat_request s))))
  = {| messages := messages c ++ [user_bubble s; error_bubble process_failed];
       isLoading := false; streamingContent := []; socket_open := true |}.
Proof.
  intros Ho. unfold sendMessage. rewrite Ho. split; [reflexivity|].
  rewrite (proj2 (chat_request_reply gen bo db (JStr s) s)). simpl.
  rewrite <- app_assoc. reflexivity.
Qed.

Lemma chat_exchange_client_witness :
  on_events (fst (sendMessage {| messages := []; isLoading := false;
                                 streamingContent := []; socket_open := true |}
                              (units "ls")))
            (snd (onMessage demo_answer (fun _ => false) db_init
                            (Some (chat_request (units "ls")))))
  = {| messages := [user_bubble (units "ls"); error_bubble process_failed];
       isLoading := false; streamingContent := []; socket_open := true |}.
Proof.
  apply (proj2 (chat_exchange_client demo_answer (fun _ => false) db_init
           {| messages := []; isLoading := false; streamingContent := [];
              socket_open := true |} (units "ls") eq_refl)).
Defined.

Lemma trim_start_spec (s : list cu) :
  exists a, s = a ++ trim_start s /\ forallb is_space a = true /\
            (forall c t, trim_start s = c :: t -> is_space c = false).
Proof.
  induction s as [| x s IH].
  - exists []. split; [reflexivity|]. split; [reflexivity|]. intros c t H; discriminate.
  - simpl. destruct (is_space x) eqn:E.
    + destruct IH as (a & Ha & Hs & Hh). exists (x :: a).
      split; [simpl; f_equal; exact Ha|]. split; [simpl; rewrite E; exact Hs | exact Hh].
    + exists []. split; [reflexivity|]. split; [reflexivity|].
      intros c t H. injection H as <- _. exact E.
Qed.

Lemma forallb_rev (p : cu -> bool) (l : list cu) : forallb p (rev l) = forallb p l.
Proof.
  induction l as [| x l IH]; [reflexivity|].
  simpl. rewrite forallb_app, IH. simpl. rewrite andb_true_r, andb_comm. reflexivity.
Qed.

(** [input.trim()] cuts off exactly a run of white space at each end: the
    input is that run, the result, and another run; a non-empty result
    starts and ends with a non-space. *)
Theorem trim_spec (s : list cu) :
  exists a b, s = a ++ trim s ++ b /\
              forallb is_space a = true /\ forallb is_space b = true /\
              (forall c t, trim s = c :: t ->
                           is_space c = false /\ is_space (last (c :: t) 0) = false).
Proof.
  destruct (trim_start_spec s) as (a & Ha & Hsa & Hha).
  destruct (trim_start_spec (rev (trim_start s))) as (b & Hb & Hsb & Hhb).
  unfold trim.
  assert (Hu : trim_start s = rev (trim_start (rev (trim_start s))) ++ rev b).
  { rewrite <- rev_app_distr, <- Hb, rev_involutive. reflexivity. }
  exists a, (rev b). split; [rewrite <- Hu; exact Ha|].
  split; [exact Hsa|]. split; [rewrite forallb_rev; exact Hsb|].
  intros c t Ht. split.
  - apply (Hha c (t ++ rev b)). rewrite Hu, Ht. reflexivity.
  - destruct (trim_start (rev (trim_start s))) as [| y w] eqn:Ew;
      [discriminate Ht|].
    specialize (Hhb y w eq_refl).
    rewrite <- Ht. simpl rev. rewrite last_last. exact Hhb.
Qed.

(** [handleSubmit]: a blank input, or a reply still loading, does nothing
    (the text box keeps its text); with the socket not open, a non-blank
    input clears the text box but nothing is sent and no bubble appears;
    otherwise the trimmed input is sent as a [chat] request and shown as
    the user's bubble. *)
Theorem handleSubmit_cases (c : Client) (input : list cu) :
  (trim input = [] -> handleSubmit c input = (c, input, [])) /\
  (isLoading c = true -> handleSubmit c input = (c, input, [])) /\
  (trim input <> [] -> isLoading c = false -> socket_open c = false ->
   handleSubmit c input = (c, [], [])) /\
  (trim input <> [] -> isLoading c = false -> socket_open c = true ->
   handleSubmit c input
   = ({| messages := messages c ++ [user_bubble (trim input)]; isLoading := true;
         streamingContent := []; socket_open := true |}, [],
      [chat_request (trim input)])).
Proof.
  unfold handleSubmit, sendMessage.
  split; [intros H; rewrite H; reflexivity|].
  split; [intros H; destruct (trim input); [reflexivity|]; rewrite H; reflexivity|].
  split; intros Hn Hl Ho; (destruct (trim input) as [| x t]; [contradiction Hn; reflexivity|]);
    rewrite Hl, Ho; reflexivity.
Qed.

Lemma handleSubmit_cases_witness :
  handleSubmit {| messages := []; isLoading := false; streamingContent := [];
                  socket_open := false |} (units " ls ")
  = ({| messages := []; isLoading := false; streamingContent := [];
        socket_open := false |}, [], []) /\
  handleSubmit {| messages := []; isLoading := false; streamingContent := [];
                  socket_open := true |} (units " ls ")
  = ({| messages := [user_bubble (units "ls")]; isLoading := true;
        streamingContent := []; socket_open := true |}, [],
     [chat_request (units "ls")]).
Proof.
  split.
  - apply (proj1 (proj2 (proj2 (handleSubmit_cases
             {| messages := []; isLoading := false; streamingContent := [];
                socket_open := false |} (units " ls "))))); [discriminate | reflexivity..].
  - apply (proj2 (proj2 (proj2 (handleSubmit_cases
             {| messages := []; isLoading := false; streamingContent := [];
                socket_open := true |} (units " ls "))))); [discriminate | reflexivity..].
Defined.
